(** * wavelets.py: the wavelet registry and the scale ladder

    A shallow embedding of [src/wavelets.py] (classes [Wavelets] and
    [WaveletAnalysis]) and the properties its specification states.

    Conventions of the embedding.
    - A Python exception is a value of [exn]; a computation that may raise
      is a [result].  Statements are sequenced in source order, so the
      first exception the interpreter would meet is the one returned.
    - A Python [int] is a [Z] (unbounded); a Python [float] and a NumPy
      [float64] are idealised as real numbers: rounding, overflow to inf
      and underflow are not modelled, and the special values inf and nan
      appear only where the code can create them from finite inputs (the
      result of [np.log2]).  A statement about computed values therefore
      carries the hypotheses [moderate_N], [moderate_dt], [moderate_dj]
      or [float_safe]: they delimit inputs on which binary64 arithmetic
      performs the products of lines 105 and 110 exactly and keeps every
      intermediate value finite.  The index [J] of line 108 is subject to
      rounding even there, so it is compared with an exact value only up
      to one unit, or at inputs where the margin exceeds the rounding.
    - A NumPy integer array holds 64-bit signed integers: every element is
      reduced by [wrap64], as NumPy does silently on overflow.
    - Allocation is assumed to succeed; in the range of [moderate_dj] a
      ladder has fewer than 2^16 elements. *)

From Stdlib Require Import ZArith List Lia Lra Reals Zfloor.
From stdpp Require Import base option strings gmap.

Local Open Scope Z_scope.

(** ** Python values, exceptions and arithmetic *)

Module Py.

(** Exception classes.  The first four are the built-in exceptions the
    code can raise; the last three are the error kinds of the
    specification's taxonomy. *)
Inductive exn : Type :=
| AttributeError (name : string)
| ZeroDivisionError
| OverflowError
| ValueError
| InvalidParameter
| DegenerateSignal
| UnknownFamily.

Inductive result (A : Type) : Type :=
| Return (a : A)
| Raise (e : exn).
Arguments Return {A} a.
Arguments Raise {A} e.

#[global] Instance result_ret : MRet result := fun A a => Return a.
#[global] Instance result_bind : MBind result := fun A B k c =>
  match c with
  | Return a => k a
  | Raise e => Raise e
  end.

(** A Python number: [int] or [float]. *)
Inductive num : Type :=
| PyInt (z : Z)
| PyFloat (r : R).

Definition to_R (n : num) : R :=
  match n with
  | PyInt z => IZR z
  | PyFloat r => r
  end.

Definition is_zero (n : num) : bool :=
  match n with
  | PyInt z => z =? 0
  | PyFloat r => if Req_dec_T r 0 then true else false
  end.

(** [a * b]: an [int] when both are, a [float] otherwise. *)
Definition mul (a b : num) : num :=
  match a, b with
  | PyInt u, PyInt v => PyInt (u * v)
  | _, _ => PyFloat (to_R a * to_R b)
  end.

(** [a / b] under [from __future__ import division]: always a [float],
    ZeroDivisionError on a zero divisor. *)
Definition truediv (a b : num) : result num :=
  if is_zero b then Raise ZeroDivisionError
  else Return (PyFloat (to_R a / to_R b)).

(** Rounding toward zero, as [int(...)] does on a float. *)
Definition trunc (r : R) : Z :=
  if Rle_dec 0 r then Zfloor r else Zceil r.

End Py.
Export Py.

(** ** The NumPy operations the code calls *)

Module Np.

(** A [float64] result: a real, a signed infinity, or nan. *)
Inductive float64 : Type :=
| Finite (r : R)
| Infinity (negative : bool)
| NaN.

(** [np.log2]: -inf at zero and nan below it (with a warning only). *)
Definition log2 (v : num) : float64 :=
  let x := to_R v in
  if Rlt_dec 0 x then Finite (ln x / ln 2)
  else if Req_dec_T x 0 then Infinity true
  else NaN.

(** A Python float times a [float64]. *)
Definition fmul (a : num) (b : float64) : float64 :=
  match b with
  | Finite y => Finite (to_R a * y)
  | Infinity s =>
      if is_zero a then NaN
      else if Rlt_dec 0 (to_R a) then Infinity s else Infinity (negb s)
  | NaN => NaN
  end.

(** [int(v)] on a [float64]. *)
Definition to_int (v : float64) : result Z :=
  match v with
  | Finite r => Return (trunc r)
  | Infinity _ => Raise OverflowError
  | NaN => Raise ValueError
  end.

Definition int64_min : Z := - 2 ^ 63.
Definition int64_max : Z := 2 ^ 63 - 1.

Definition in_int64 (z : Z) : bool :=
  (int64_min <=? z) && (z <=? int64_max).

(** Two's-complement reduction to 64 bits. *)
Definition wrap64 (z : Z) : Z :=
  (z + 2 ^ 63) mod 2 ^ 64 - 2 ^ 63.

Inductive ndarray : Type :=
| Int64Array (a : list Z)
| Float64Array (a : list R).

(** [np.arange(0, stop)]: the integers 0, 1, ..., stop - 1; empty when
    [stop <= 0]. *)
Definition arange (stop : Z) : list Z :=
  map Z.of_nat (seq 0 (Z.to_nat stop)).

(** [2 ** a] on an integer array: element-wise, in int64. *)
Definition pow2 (a : list Z) : list Z :=
  map (fun j => wrap64 (2 ^ j)) a.

(** [s * a] for a Python scalar and an integer array: an int64 array for
    an [int] scalar, a float64 array for a [float] scalar.  An [int] that
    does not fit int64 is refused with OverflowError, as NumPy 2 does
    (earlier versions promote the array instead). *)
Definition scalar_mul (s : num) (a : list Z) : result ndarray :=
  match s with
  | PyInt z =>
      if in_int64 z
      then Return (Int64Array (map (fun e => wrap64 (z * e)) a))
      else Raise OverflowError
  | PyFloat r => Return (Float64Array (map (fun e => (r * IZR e)%R) a))
  end.

(** The elements of an array as reals. *)
Definition values (a : ndarray) : list R :=
  match a with
  | Int64Array l => map IZR l
  | Float64Array l => l
  end.

End Np.

(** ** class Wavelets *)

Module Wavelets.

(** The function objects of [scipy.signal] the class body refers to. *)
Inductive pyfunc : Type :=
| scipy_signal_morlet
| scipy_signal_ricker.

(** What a class attribute can hold here: a function, the class
    docstring, the name of the defining module, or one of the descriptors
    class creation installs. *)
Inductive pyobj : Type :=
| Func (f : pyfunc)
| Docstring
| ModuleName
| Descriptor.

(** The namespace of the class, [vars(Wavelets)].  The interpreter binds
    [__module__] before the body runs and [__doc__] from the docstring;
    the body then runs statement by statement, the right-hand side of
    [dog2 = ricker] being read from the namespace; class creation adds
    the descriptors [__dict__] and [__weakref__]. *)
Definition namespace : gmap string pyobj :=
  let ns := <["__module__" := ModuleName]> ∅ in
  let ns := <["__doc__" := Docstring]> ns in
  let ns := <["morlet" := Func scipy_signal_morlet]> ns in
  let ns := <["ricker" := Func scipy_signal_ricker]> ns in
  let ns :=
    match ns !! "ricker" with
    | Some f => <["dog2" := f]> ns
    | None => ns
    end in
  let ns := <["__dict__" := Descriptor]> ns in
  <["__weakref__" := Descriptor]> ns.

Section Lookup.
(** Attributes the class has without its namespace holding them: those
    of [object] and of the metaclass [type] ([__name__], [__init__],
    [mro], ...), and any further double-underscore entry a particular
    interpreter version adds to a class. *)
Variable inherited : gmap string pyobj.

(** [getattr(Wavelets, name)]. *)
Definition getattr (name : string) : result pyobj :=
  match namespace !! name with
  | Some v => Return v
  | None =>
      match inherited !! name with
      | Some v => Return v
      | None => Raise (AttributeError name)
      end
  end.
End Lookup.

End Wavelets.

(** ** class WaveletAnalysis *)

Module WaveletAnalysis.

(** The instance attributes.  [__init__] binds [x], [dt] and [dj]; [N]
    is read by [scales] but bound by no method, so it is present only
    when a caller has assigned it. *)
Record instance : Type := Build {
  x : list R;
  dt : num;
  dj : num;
  N : option num
}.

Definition __init__ (x : list R) (dt dj : num) : instance :=
  {| x := x; dt := dt; dj := dj; N := None |}.

(** The assignment [self.N = n], made from outside the class. *)
Definition set_N (n : num) (self : instance) : instance :=
  {| x := x self; dt := dt self; dj := dj self; N := Some n |}.

(** [self.N]. *)
Definition get_N (self : instance) : result num :=
  match N self with
  | Some n => Return n
  | None => Raise (AttributeError "N")
  end.

Definition scales (self : instance) : result Np.ndarray :=
  let dj := dj self in
  let s0 := mul (PyInt 2) (dt self) in
  inv ← truediv (PyInt 1) dj;
  n ← get_N self;
  q ← truediv (mul n (dt self)) s0;
  J ← Np.to_int (Np.fmul inv (Np.log2 q));
  Np.scalar_mul s0 (Np.pow2 (Np.arange (J + 1))).

(** The local [J] of [scales]: the steps up to and including line 108. *)
Definition largest_scale (self : instance) : result Z :=
  let s0 := mul (PyInt 2) (dt self) in
  inv ← truediv (PyInt 1) (dj self);
  n ← get_N self;
  q ← truediv (mul n (dt self)) s0;
  Np.to_int (Np.fmul inv (Np.log2 q)).

End WaveletAnalysis.

Import Np Wavelets WaveletAnalysis.

(** ** Vocabulary of the specification *)

(** The registered family names. *)
Definition registered : list string := ["morlet"; "ricker"; "dog2"].

(** A builder for a signal of length [n] with real spacing [dt] and
    resolution [dj]: the constructor call followed by [self.N = n]. *)
Definition builder (x : list R) (n : Z) (dt dj : R) : instance :=
  set_N (PyInt n) (__init__ x (PyFloat dt) (PyFloat dj)).

(** The same for a spacing and a resolution of either numeric type: the
    constructor defaults are the int [dt = 1] and the float
    [dj = 0.125]. *)
Definition analysis (x : list R) (n : Z) (dt dj : num) : instance :=
  set_N (PyInt n) (__init__ x dt dj).

(** A name reserved by the interpreter: it starts with two underscores. *)
Definition is_dunder (name : string) : bool := String.prefix "__" name.

(** The ladder index of the specification:
    floor((1/dj) * log2(N*dt / (2*dt))). *)
Definition spec_J (n : Z) (dt dj : R) : Z :=
  Zfloor (1 / dj * (ln (IZR n * dt / (2 * dt)) / ln 2)).

(** The ladder of the specification: s0 * 2^(j*dj) for j = 0 .. J. *)
Definition spec_ladder (n : Z) (dt dj : R) : list R :=
  map (fun j => (2 * dt * Rpower 2 (IZR j * dj))%R) (arange (spec_J n dt dj + 1)).

(** Successive elements strictly increase. *)
Definition increasing (l : list R) : Prop :=
  forall (i : nat) (a b : R),
    nth_error l i = Some a -> nth_error l (S i) = Some b -> (a < b)%R.

(** No element of the ladder leaves the int64 range while it is built:
    the powers 2^j for a float base scale, the products s0 * 2^j for an
    int base scale. *)
Definition no_wraparound (s0 : num) (len : nat) : Prop :=
  match s0 with
  | PyInt z => z * 2 ^ (Z.of_nat len - 1) <= int64_max
  | PyFloat _ => (len <= 63)%nat
  end.

(** Inputs on which the float64 arithmetic of [scales] stays finite and
    away from underflow.  A signal length converts to a float exactly; a
    float spacing leaves 500 binary orders of magnitude to either side,
    an int spacing keeps s0 = 2 * dt in int64; a resolution between
    2^-10 and 2^10 in magnitude keeps [1 / dj] finite and the ladder
    short. *)
Definition moderate_N (n : Z) : Prop := 1 <= n <= 2 ^ 53.

Definition moderate_dt (dt : num) : Prop :=
  match dt with
  | PyInt z => 1 <= Z.abs z /\ 2 * Z.abs z <= int64_max
  | PyFloat r => (/ 2 ^ 500 <= Rabs r <= 2 ^ 500)%R
  end.

Definition moderate_dj (dj : num) : Prop :=
  match dj with
  | PyInt z => 1 <= Z.abs z <= 2 ^ 10
  | PyFloat r => (/ 2 ^ 10 <= Rabs r <= 2 ^ 10)%R
  end.

(** A float base scale whose products with the int64 powers of two stay
    below the largest float64 (just under 2^1024): these products are
    then computed exactly. *)
Definition float_safe (s0 : num) : Prop :=
  match s0 with
  | PyInt _ => True
  | PyFloat r => (Rabs r <= 2 ^ 960)%R
  end.


(** ** Basic facts about the operations *)

Section Arithmetic.
Local Open Scope R_scope.

Lemma is_zero_true (n : num) : is_zero n = true <-> to_R n = 0.
Proof.
  destruct n as [z | r]; simpl.
  - rewrite Z.eqb_eq. split; [intros ->; reflexivity | apply eq_IZR_R0].
  - destruct (Req_dec_T r 0); split; congruence.
Qed.

Lemma is_zero_false (n : num) : is_zero n = false <-> to_R n <> 0.
Proof.
  rewrite <- is_zero_true. destruct (is_zero n); split; congruence.
Qed.

Lemma truediv_nonzero (a b : num) :
  to_R b <> 0 -> truediv a b = Return (PyFloat (to_R a / to_R b)).
Proof.
  intros Hb. unfold truediv. apply is_zero_false in Hb. now rewrite Hb.
Qed.


Lemma to_R_mul (a b : num) : to_R (mul a b) = to_R a * to_R b.
Proof. destruct a, b; simpl; try reflexivity. apply mult_IZR. Qed.

Lemma trunc_nonneg (r : R) : 0 <= r -> trunc r = Zfloor r /\ (0 <= trunc r)%Z.
Proof.
  intros Hr. unfold trunc. destruct (Rle_dec 0 r) as [_ | Hn]; [| contradiction].
  split; [reflexivity |]. now apply (Zfloor_lub 0).
Qed.

Lemma trunc_nonpos (r : R) : r <= 0 -> (trunc r <= 0)%Z.
Proof.
  intros Hr. unfold trunc. destruct (Rle_dec 0 r) as [Hp | Hn].
  - assert (r = 0) as -> by lra. rewrite (ZfloorZ 0). lia.
  - apply le_IZR. pose proof (Zceil_bound r) as [Hlo _]. 
    assert (IZR (Zceil r) < 1) by lra.
    apply lt_IZR in H. apply IZR_le. lia.
Qed.

Lemma trunc_IZR (z : Z) : trunc (IZR z) = z.
Proof.
  unfold trunc. destruct (Rle_dec 0 (IZR z)).
  - apply ZfloorZ.
  - unfold Zceil. rewrite <- opp_IZR, ZfloorZ. lia.
Qed.

Lemma ln_2_pos : 0 < ln 2.
Proof. pose proof ln_lt_2. lra. Qed.

(** The binary logarithm of a power of two. *)
Lemma log2_pow2 (k : nat) : ln (2 ^ k) / ln 2 = INR k.
Proof.
  rewrite ln_pow by lra. field. pose proof ln_2_pos. lra.
Qed.

Lemma log2_sign (q : R) :
  0 < q -> (1 < q -> 0 < ln q / ln 2) /\ (q <= 1 -> ln q / ln 2 <= 0).
Proof.
  intros Hq. pose proof ln_2_pos as H2. split; intros H.
  - apply Rdiv_lt_0_compat; [| assumption].
    rewrite <- ln_1. apply ln_increasing; lra.
  - assert (ln q <= 0).
    { destruct (Req_dec_T q 1) as [-> | Hne]; [rewrite ln_1; lra |].
      rewrite <- ln_1. left. apply ln_increasing; lra. }
    unfold Rdiv. assert (0 < / ln 2) by now apply Rinv_0_lt_compat. nra.
Qed.

End Arithmetic.

Section Arrays.

Lemma wrap64_small (z : Z) : int64_min <= z <= int64_max -> wrap64 z = z.
Proof.
  unfold wrap64, int64_min, int64_max. intros H.
  rewrite Z.mod_small; lia.
Qed.

Lemma length_arange (stop : Z) : length (arange stop) = Z.to_nat stop.
Proof. unfold arange. now rewrite length_map, length_seq. Qed.

Lemma nth_error_arange (stop : Z) (i : nat) :
  nth_error (arange stop) i =
  if (i <? Z.to_nat stop)%nat then Some (Z.of_nat i) else None.
Proof.
  unfold arange. rewrite nth_error_map.
  destruct (Nat.ltb_spec i (Z.to_nat stop)) as [Hlt | Hge].
  - rewrite nth_error_seq. apply Nat.ltb_lt in Hlt. now rewrite Hlt.
  - rewrite (proj2 (nth_error_None _ _)); [reflexivity |].
    now rewrite length_seq.
Qed.

Lemma length_values_scalar_mul (s : num) (l : list Z) (a : ndarray) :
  scalar_mul s l = Return a -> length (values a) = length l.
Proof.
  destruct s as [z | r]; simpl.
  - destruct (in_int64 z); [| discriminate].
    intros [= <-]. simpl. now rewrite !length_map.
  - intros [= <-]. simpl. now rewrite length_map.
Qed.

End Arrays.

(** ** How [scales] runs *)

Section Scales.
Local Open Scope R_scope.

(** [scales] is its computation of [J] followed by line 110. *)
Lemma scales_via_J (self : instance) :
  scales self =
  (J ← largest_scale self;
   scalar_mul (mul (PyInt 2) (WaveletAnalysis.dt self)) (pow2 (arange (J + 1)))).
Proof.
  unfold scales, largest_scale.
  destruct (truediv (PyInt 1) (WaveletAnalysis.dj self)) as [inv | e]; [| reflexivity].
  destruct (get_N self) as [n | e]; [| reflexivity].
  simpl.
  destruct (truediv _ _) as [q | e]; reflexivity.
Qed.

(** With [N] bound and a positive quotient, [J] is the truncated
    logarithm. *)
Lemma largest_scale_builder (x : list R) (n : Z) (dt dj : R) :
  dt <> 0 -> dj <> 0 -> 0 < IZR n * dt / (2 * dt) ->
  largest_scale (builder x n dt dj) =
  Return (trunc (1 / dj * (ln (IZR n * dt / (2 * dt)) / ln 2))).
Proof.
  intros Hdt Hdj Hq. unfold largest_scale, builder. simpl.
  rewrite (truediv_nonzero (PyInt 1) (PyFloat dj)) by exact Hdj. simpl.
  rewrite truediv_nonzero by (simpl; lra). simpl.
  unfold log2. simpl.
  destruct (Rlt_dec 0 (IZR n * dt / (2 * dt))) as [_ | Hn]; [| contradiction].
  reflexivity.
Qed.

Lemma quotient_simpl (n : Z) (dt : R) :
  dt <> 0 -> IZR n * dt / (2 * dt) = IZR n / 2.
Proof. intros Hdt. now field. Qed.

(** The ladder of a builder whose [J] is known. *)
Lemma scales_builder (x : list R) (n : Z) (dt dj : R) (J : Z) :
  largest_scale (builder x n dt dj) = Return J ->
  scales (builder x n dt dj) =
  Return (Float64Array
            (map (fun e => 2 * dt * IZR e) (pow2 (arange (J + 1))))).
Proof.
  intros HJ. rewrite scales_via_J, HJ. reflexivity.
Qed.

End Scales.

Section ValidInputs.
Local Open Scope R_scope.
Variables (x : list R) (n : Z) (dt dj : R).
Hypothesis Hn : (1 <= n)%Z.
Hypothesis Hdt : 0 < dt.
Hypothesis Hdj : 0 < dj.

Lemma quotient_pos : 0 < IZR n * dt / (2 * dt).
Proof.
  rewrite quotient_simpl by lra. apply IZR_le in Hn. lra.
Qed.

Lemma builder_J :
  largest_scale (builder x n dt dj) =
  Return (trunc (1 / dj * (ln (IZR n * dt / (2 * dt)) / ln 2))).
Proof. apply largest_scale_builder; [lra | lra | apply quotient_pos]. Qed.

Lemma inv_dj_pos : 0 < 1 / dj.
Proof. apply Rdiv_lt_0_compat; lra. Qed.

(** A signal longer than the base scale: [J] is the floor of the
    specification and is not negative. *)
Lemma long_signal_J :
  IZR n * dt > 2 * dt ->
  largest_scale (builder x n dt dj) = Return (spec_J n dt dj) /\
  (0 <= spec_J n dt dj)%Z.
Proof.
  intros Hlong. rewrite builder_J. unfold spec_J.
  set (q := IZR n * dt / (2 * dt)).
  assert (1 < q) as Hq.
  { unfold q. rewrite quotient_simpl by lra. nra. }
  assert (0 < ln q / ln 2) as Hlog by (apply log2_sign; lra).
  pose proof inv_dj_pos as Hinv.
  assert (0 <= 1 / dj * (ln q / ln 2)) as Hv by nra.
  destruct (trunc_nonneg _ Hv) as [-> Hpos]. split; [reflexivity |].
  now apply (Zfloor_lub 0).
Qed.

(** A signal no longer than the base scale: [J] is not positive. *)
Lemma short_signal_J :
  IZR n * dt <= 2 * dt ->
  exists J : Z, largest_scale (builder x n dt dj) = Return J /\ (J <= 0)%Z.
Proof.
  intros Hshort. rewrite builder_J. eexists; split; [reflexivity |].
  set (q := IZR n * dt / (2 * dt)).
  assert (0 < q) as Hq0 by apply quotient_pos.
  assert (q <= 1) as Hq.
  { unfold q. rewrite quotient_simpl by lra. nra. }
  assert (ln q / ln 2 <= 0) as Hlog by (apply log2_sign; lra).
  pose proof inv_dj_pos as Hinv.
  apply trunc_nonpos. nra.
Qed.

End ValidInputs.

Section Ladder.
Local Open Scope R_scope.

Lemma pow2_arange_head (J : Z) :
  (0 <= J)%Z -> exists t, pow2 (arange (J + 1)) = 1%Z :: t.
Proof.
  intros HJ. unfold pow2, arange.
  replace (Z.to_nat (J + 1)) with (S (Z.to_nat J)) by lia.
  simpl. eexists. f_equal.
Qed.

Lemma arange_nonpos (stop : Z) : (stop <= 0)%Z -> arange stop = [].
Proof.
  intros H. unfold arange. now replace (Z.to_nat stop) with 0%nat by lia.
Qed.

End Ladder.

(** ** Inputs of either numeric type *)

Section NumericTypes.
Local Open Scope R_scope.


(** A division depends on its operands through their values only. *)
Lemma truediv_to_R (a b a' b' : num) :
  to_R a = to_R a' -> to_R b = to_R b' -> truediv a b = truediv a' b'.
Proof.
  intros Ha Hb. unfold truediv. rewrite Ha, Hb.
  assert (is_zero b = is_zero b') as ->; [| reflexivity].
  destruct (is_zero b') eqn:E.
  - apply is_zero_true. rewrite Hb. now apply is_zero_true.
  - apply is_zero_false. rewrite Hb. now apply is_zero_false.
Qed.

(** The index [J] is the same for an int and for a float of the same
    value. *)
Lemma largest_scale_to_R (x : list R) (n : Z) (dt dj : num) :
  largest_scale (analysis x n dt dj) =
  largest_scale (builder x n (to_R dt) (to_R dj)).
Proof.
  unfold largest_scale, analysis, builder, get_N.
  cbn [set_N __init__ WaveletAnalysis.dt WaveletAnalysis.dj N].
  rewrite (truediv_to_R (PyInt 1) dj (PyInt 1) (PyFloat (to_R dj)))
    by reflexivity.
  destruct (truediv (PyInt 1) (PyFloat (to_R dj))) as [inv | e]; [| reflexivity].
  cbn [mbind result_bind].
  rewrite (truediv_to_R (mul (PyInt n) dt) (mul (PyInt 2) dt)
             (mul (PyInt n) (PyFloat (to_R dt)))
             (mul (PyInt 2) (PyFloat (to_R dt))))
    by (rewrite !to_R_mul; reflexivity).
  reflexivity.
Qed.

Lemma scales_analysis (x : list R) (n : Z) (dt dj : num) (J : Z) :
  largest_scale (analysis x n dt dj) = Return J ->
  scales (analysis x n dt dj) =
  scalar_mul (mul (PyInt 2) dt) (pow2 (arange (J + 1))).
Proof. intros HJ. rewrite scales_via_J, HJ. reflexivity. Qed.

Lemma scales_analysis_raises (x : list R) (n : Z) (dt dj : num) (e : exn) :
  largest_scale (analysis x n dt dj) = Raise e ->
  scales (analysis x n dt dj) = Raise e.
Proof. intros HJ. rewrite scales_via_J, HJ. reflexivity. Qed.

Lemma pow2_pos (k : nat) : 0 < 2 ^ k.
Proof. apply pow_lt; lra. Qed.

Lemma pow2_bounds (k : nat) : / 2 ^ k <= 1 <= 2 ^ k.
Proof.
  assert (1 <= 2 ^ k) as H by (apply pow_R1_Rle; lra).
  split; [| exact H].
  rewrite <- Rinv_1. apply Rinv_le_contravar; lra.
Qed.

Lemma moderate_dt_nonzero (dt : num) : moderate_dt dt -> to_R dt <> 0.
Proof.
  destruct dt as [z | r]; cbn [moderate_dt to_R].
  - intros [Hz _]. apply not_0_IZR. lia.
  - intros [Hlo _] ->. rewrite Rabs_R0 in Hlo.
    pose proof (Rinv_0_lt_compat _ (pow2_pos 500)). lra.
Qed.

Lemma moderate_dj_nonzero (dj : num) : moderate_dj dj -> to_R dj <> 0.
Proof.
  destruct dj as [z | r]; cbn [moderate_dj to_R].
  - intros [Hz _]. apply not_0_IZR. lia.
  - intros [Hlo _] ->. rewrite Rabs_R0 in Hlo.
    pose proof (Rinv_0_lt_compat _ (pow2_pos 10)). lra.
Qed.

(** Line 110 on a moderate spacing: the product is formed, has the
    length of the array, and starts with s0 when the array starts with
    2^0. *)
Lemma scalar_mul_moderate (dt : num) (l : list Z) :
  moderate_dt dt ->
  exists a : ndarray,
    scalar_mul (mul (PyInt 2) dt) l = Return a /\
    length (values a) = length l /\
    (forall t : list Z, l = 1%Z :: t -> head (values a) = Some (2 * to_R dt)).
Proof.
  destruct dt as [z | r]; cbn [moderate_dt mul scalar_mul to_R].
  - intros [Hlo Hhi].
    assert (int64_min <= 2 * z <= int64_max)%Z as Hfit
      by (unfold int64_min, int64_max in *; lia).
    assert (in_int64 (2 * z) = true) as ->.
    { unfold in_int64. apply andb_true_iff. split; apply Z.leb_le; lia. }
    eexists. split; [reflexivity |]. split.
    + cbn [values]. now rewrite !length_map.
    + intros t ->. cbn [values map head].
      rewrite Z.mul_1_r, wrap64_small by exact Hfit. now rewrite mult_IZR.
  - intros _. eexists. split; [reflexivity |]. split.
    + cbn [values]. now rewrite length_map.
    + intros t ->. cbn [values map head]. f_equal. ring.
Qed.

(** With a signal of positive length and moderate dt and dj, of either
    sign, [scales] returns. *)
Lemma scales_returns (x : list R) (n : Z) (dt dj : num) :
  (0 < n)%Z -> moderate_dt dt -> moderate_dj dj ->
  exists a : ndarray, scales (analysis x n dt dj) = Return a.
Proof.
  intros Hn Hdt Hdj.
  pose proof (moderate_dt_nonzero _ Hdt) as Hdt0.
  pose proof (moderate_dj_nonzero _ Hdj) as Hdj0.
  assert (0 < IZR n * to_R dt / (2 * to_R dt)) as Hq.
  { rewrite quotient_simpl by assumption. apply IZR_lt in Hn. lra. }
  rewrite (scales_analysis x n dt dj _
             (eq_trans (largest_scale_to_R x n dt dj)
                (largest_scale_builder x n _ _ Hdt0 Hdj0 Hq))).
  destruct (scalar_mul_moderate dt (pow2 (arange (trunc
              (1 / to_R dj * (ln (IZR n * to_R dt / (2 * to_R dt)) / ln 2)) + 1)))
              Hdt) as (a & Ha & _).
  now exists a.
Qed.

(** An int spacing whose double leaves int64 stops line 110. *)
Lemma scales_int64_overflow (x : list R) (n z : Z) (dj : num) :
  (0 < n)%Z -> z <> 0%Z -> to_R dj <> 0 -> in_int64 (2 * z) = false ->
  scales (analysis x n (PyInt z) dj) = Raise OverflowError.
Proof.
  intros Hn Hz Hdj Hfit.
  assert (to_R (PyInt z) <> 0) as Hdt0 by (cbn [to_R]; now apply not_0_IZR).
  assert (0 < IZR n * to_R (PyInt z) / (2 * to_R (PyInt z))) as Hq.
  { rewrite quotient_simpl by assumption. apply IZR_lt in Hn. lra. }
  rewrite (scales_analysis x n (PyInt z) dj _
             (eq_trans (largest_scale_to_R x n (PyInt z) dj)
                (largest_scale_builder x n _ _ Hdt0 Hdj Hq))).
  cbn [mul scalar_mul]. now rewrite Hfit.
Qed.

(** An empty signal: the quotient is 0, its logarithm -inf. *)
Lemma largest_scale_empty (x : list R) (dt dj : R) :
  dt <> 0 -> dj <> 0 ->
  largest_scale (builder x 0 dt dj) = Raise OverflowError.
Proof.
  intros Hdt Hdj.
  assert (1 / dj <> 0) as Hinv.
  { unfold Rdiv. rewrite Rmult_1_l. now apply Rinv_neq_0_compat. }
  unfold largest_scale, builder. simpl.
  rewrite (truediv_nonzero (PyInt 1) (PyFloat dj)) by exact Hdj. simpl.
  rewrite truediv_nonzero by (simpl; lra). simpl.
  unfold Np.log2. simpl.
  assert (0 * dt / (2 * dt) = 0) as -> by now field.
  destruct (Rlt_dec 0 0); [lra |].
  destruct (Req_dec_T 0 0); [| contradiction].
  cbn [fmul]. rewrite (proj2 (is_zero_false (PyFloat (1 / dj)))) by exact Hinv.
  destruct (Rlt_dec 0 _); reflexivity.
Qed.

(** A negative length: the quotient is negative, its logarithm nan. *)
Lemma largest_scale_negative (x : list R) (n : Z) (dt dj : R) :
  dt <> 0 -> dj <> 0 -> (n < 0)%Z ->
  largest_scale (builder x n dt dj) = Raise ValueError.
Proof.
  intros Hdt Hdj Hn. apply IZR_lt in Hn.
  unfold largest_scale, builder. simpl.
  rewrite (truediv_nonzero (PyInt 1) (PyFloat dj)) by exact Hdj. simpl.
  rewrite truediv_nonzero by (simpl; lra). simpl.
  unfold Np.log2. simpl. rewrite quotient_simpl by assumption.
  destruct (Rlt_dec 0 (IZR n / 2)); [lra |].
  destruct (Req_dec_T (IZR n / 2) 0); [lra | reflexivity].
Qed.

End NumericTypes.

(** ** The claims *)

Local Open Scope R_scope.

Lemma moderate_dt_default : moderate_dt (PyInt 1).
Proof. unfold moderate_dt, int64_max. lia. Qed.

Lemma moderate_dt_one : moderate_dt (PyFloat 1).
Proof. unfold moderate_dt. rewrite Rabs_R1. apply pow2_bounds. Qed.

Lemma moderate_dj_default : moderate_dj (PyFloat (1 / 8)).
Proof.
  unfold moderate_dj. rewrite Rabs_pos_eq by lra. simpl. lra.
Qed.

Lemma moderate_N_256 : moderate_N 256.
Proof. unfold moderate_N. lia. Qed.

Lemma ladder_256_safe :
  float_safe (mul (PyInt 2) (WaveletAnalysis.dt (builder [] 256 1 (1 / 8)))).
Proof.
  cbn [float_safe mul to_R builder set_N __init__ WaveletAnalysis.dt].
  rewrite Rabs_pos_eq by lra.
  apply Rle_trans with (2 ^ 1); [simpl; lra |].
  apply Rle_pow; [lra | lia].
Qed.

(** *** Evaluations at concrete inputs *)

Lemma index_of_pow2 (q inv : R) (k : nat) (m : Z) :
  q = 2 ^ k -> inv = IZR m -> inv * (ln q / ln 2) = IZR (m * Z.of_nat k).
Proof.
  intros -> ->. rewrite log2_pow2, mult_IZR, <- INR_IZR_INZ. reflexivity.
Qed.

Lemma index_256 (dt : R) :
  dt <> 0 -> 1 / (1 / 8) * (ln (IZR 256 * dt / (2 * dt)) / ln 2) = IZR 56.
Proof.
  intros Hdt. apply (index_of_pow2 _ _ 7 8).
  - rewrite quotient_simpl by assumption. simpl. lra.
  - lra.
Qed.

Lemma index_2 : 1 / (1 / 8) * (ln (IZR 2 * 1 / (2 * 1)) / ln 2) = IZR 0.
Proof. apply (index_of_pow2 _ _ 0 8); simpl; lra. Qed.

Lemma index_1 : 1 / (1 / 8) * (ln (IZR 1 * 1 / (2 * 1)) / ln 2) = IZR (-8).
Proof.
  replace (IZR 1 * 1 / (2 * 1)) with (/ 2) by lra.
  rewrite ln_Rinv by lra. pose proof ln_2_pos. field. lra.
Qed.

Lemma J_256 (x : list R) (dt : R) :
  dt <> 0 -> largest_scale (builder x 256 dt (1 / 8)) = Return 56%Z.
Proof.
  intros Hdt. rewrite largest_scale_builder.
  - now rewrite index_256, trunc_IZR.
  - assumption.
  - lra.
  - rewrite quotient_simpl by assumption. lra.
Qed.

Lemma J_2 (x : list R) : largest_scale (builder x 2 1 (1 / 8)) = Return 0%Z.
Proof.
  rewrite largest_scale_builder by lra. now rewrite index_2, trunc_IZR.
Qed.

Lemma J_1 (x : list R) : largest_scale (builder x 1 1 (1 / 8)) = Return (-8)%Z.
Proof.
  rewrite largest_scale_builder by lra. now rewrite index_1, trunc_IZR.
Qed.

Lemma pow2_arange_3 : firstn 3 (pow2 (arange 57)) = [1; 2; 4]%Z.
Proof. vm_compute. reflexivity. Qed.

Lemma Rpower_eighth : Rpower 2 (1 * (1 / 8)) < 2.
Proof.
  rewrite <- (Rpower_1 2) at 2 by lra. apply Rpower_lt; lra.
Qed.

(** C2 (as stated, refuted).  The int spacing dt = 2^62 with N = 8 and
    dj = 1 is a valid input (N >= 1, dt > 0, dj > 0, N*dt > 2*dt), yet
    [scales] returns no sequence: s0 = 2^63 does not fit int64 and line
    110 raises OverflowError. *)
Lemma scales_large_spacing_raises :
  (1 <= 8)%Z /\ 0 < to_R (PyInt (2 ^ 62)) /\ 0 < to_R (PyInt 1) /\
  IZR 8 * to_R (PyInt (2 ^ 62)) > 2 * to_R (PyInt (2 ^ 62)) /\
  scales (analysis [] 8 (PyInt (2 ^ 62)) (PyInt 1)) = Raise OverflowError.
Proof.
  assert (0 < IZR (2 ^ 62)) as H62 by (apply IZR_lt; lia).
  cbn [to_R]. repeat split; try lia; try lra.
  apply scales_int64_overflow; [lia | lia | cbn [to_R]; lra | reflexivity].
Qed.

(** C2 (amended).  For every int N with 1 <= N <= 2^53 and every dt > 0
    and dj > 0 of moderate size with N*dt > 2*dt, [scales] returns a
    sequence whose first element is the base scale 2 * dt. *)
Theorem scales_first_element (x : list R) (n : Z) (dt dj : num) :
  moderate_N n -> moderate_dt dt -> moderate_dj dj ->
  0 < to_R dt -> 0 < to_R dj -> IZR n * to_R dt > 2 * to_R dt ->
  exists a : ndarray,
    scales (analysis x n dt dj) = Return a /\
    head (values a) = Some (2 * to_R dt).
Proof.
  intros [Hn _] Hdt Hdj Hdtpos Hdjpos Hlong.
  destruct (long_signal_J x n _ _ Hn Hdtpos Hdjpos Hlong) as [HJ Hpos].
  rewrite (scales_analysis x n dt dj _
             (eq_trans (largest_scale_to_R x n dt dj) HJ)).
  destruct (pow2_arange_head _ Hpos) as [t Ht]. rewrite Ht.
  destruct (scalar_mul_moderate dt (1%Z :: t) Hdt) as (a & Ha & _ & Hhead).
  exists a. split; [exact Ha | now apply (Hhead t)].
Qed.

Lemma scales_first_element_witness :
  exists a : ndarray,
    scales (analysis [] 256 (PyInt 1) (PyFloat (1 / 8))) = Return a /\
    head (values a) = Some (2 * to_R (PyInt 1)).
Proof.
  apply (scales_first_element [] 256 (PyInt 1) (PyFloat (1 / 8))
           moderate_N_256 moderate_dt_default moderate_dj_default);
    simpl; lra.
Defined.




(** C1.  At N = 256, dt = 1, dj = 0.125 the code returns the 57 values
    2 * 2^j, which start 2, 4, 8: successive elements have ratio 2, where
    the ladder s0 * 2^(j * dj) of the claim and of the docstring starts
    2, 2 * 2^0.125, 2 * 2^0.25.  The exponent of line 110 lacks [dj]. *)
Theorem scales_example_ratio (x : list R) :
  exists a : ndarray,
    scales (builder x 256 1 (1 / 8)) = Return a /\
    length (values a) = 57%nat /\
    firstn 3 (values a) = [2 * 1 * 1; 2 * 1 * 2; 2 * 1 * 4] /\
    firstn 3 (spec_ladder 256 1 (1 / 8)) =
      [2 * 1 * Rpower 2 (0 * (1 / 8));
       2 * 1 * Rpower 2 (1 * (1 / 8));
       2 * 1 * Rpower 2 (2 * (1 / 8))] /\
    2 * 1 * 2 <> 2 * 1 * Rpower 2 (1 * (1 / 8)) /\
    values a <> spec_ladder 256 1 (1 / 8).
Proof.
  assert (spec_ladder 256 1 (1 / 8) =
          map (fun j => 2 * 1 * Rpower 2 (IZR j * (1 / 8))) (arange 57)) as Hspec.
  { unfold spec_ladder, spec_J. rewrite index_256 by lra. now rewrite ZfloorZ. }
  assert (2 * 1 * 2 <> 2 * 1 * Rpower 2 (1 * (1 / 8))) as Hne.
  { pose proof Rpower_eighth. lra. }
  rewrite (scales_builder x 256 1 (1 / 8) 56) by (apply J_256; lra).
  eexists; split; [reflexivity |]. cbn [values].
  change (56 + 1)%Z with 57%Z.
  split; [| split; [| split; [| split]]].
  - unfold pow2. now rewrite !length_map, length_arange.
  - now rewrite firstn_map, pow2_arange_3.
  - rewrite Hspec. reflexivity.
  - exact Hne.
  - intros Heq. apply (f_equal (fun l => nth 1 l 0)) in Heq.
    rewrite Hspec in Heq. apply Hne. exact Heq.
Qed.

Lemma scales_at_256 (x : list R) (dt : R) :
  dt <> 0 ->
  scales (builder x 256 dt (1 / 8)) =
  Return (Float64Array (map (fun e => 2 * dt * IZR e) (pow2 (arange 57)))).
Proof.
  intros Hdt. now rewrite (scales_builder x 256 dt (1 / 8) 56) by now apply J_256.
Qed.

Lemma scales_at_2 :
  scales (builder [] 2 1 (1 / 8)) = Return (Float64Array [2 * 1 * 1]).
Proof.
  now rewrite (scales_builder [] 2 1 (1 / 8) 0) by apply J_2.
Qed.

(** C4 (as stated, refuted).  At N = 2, dt = 1, dj = 0.125, where
    N*dt = 2*dt, [scales] returns the one-element ladder [2] and raises
    nothing. *)
Lemma scales_boundary_returns :
  scales (builder [] 2 1 (1 / 8)) = Return (Float64Array [2 * 1 * 1]) /\
  scales (builder [] 2 1 (1 / 8)) <> Raise DegenerateSignal.
Proof.
  rewrite scales_at_2. split; [reflexivity | discriminate].
Qed.

(** C4 (amended).  For every int N >= 1 and every dt > 0 and dj > 0 of
    moderate size with N*dt <= 2*dt, [scales] raises no error: it returns
    a ladder that is empty or is the single base scale 2 * dt. *)
Theorem scales_short_signal (x : list R) (n : Z) (dt dj : num) :
  moderate_N n -> moderate_dt dt -> moderate_dj dj ->
  0 < to_R dt -> 0 < to_R dj -> IZR n * to_R dt <= 2 * to_R dt ->
  exists a : ndarray,
    scales (analysis x n dt dj) = Return a /\
    (values a = [] \/ values a = [2 * to_R dt]).
Proof.
  intros [Hn _] Hdt Hdj Hdtpos Hdjpos Hshort.
  destruct (short_signal_J x n _ _ Hn Hdtpos Hdjpos Hshort) as (J & HJ & Hle).
  rewrite (scales_analysis x n dt dj _
             (eq_trans (largest_scale_to_R x n dt dj) HJ)).
  destruct (scalar_mul_moderate dt (pow2 (arange (J + 1))) Hdt)
    as (a & Ha & Hlen & Hhead).
  exists a. split; [exact Ha |].
  destruct (Z.eq_dec J 0%Z) as [-> | Hneg].
  - right. specialize (Hhead [] eq_refl).
    change (pow2 (arange (0 + 1))) with [1%Z] in Hlen.
    destruct (values a) as [| v [| w t]]; try discriminate.
    simpl in Hhead. now injection Hhead as ->.
  - left. rewrite arange_nonpos in Hlen by lia.
    now apply length_zero_iff_nil.
Qed.

Lemma scales_short_signal_witness :
  exists a : ndarray,
    scales (analysis [] 2 (PyInt 1) (PyFloat (1 / 8))) = Return a /\
    (values a = [] \/ values a = [2 * to_R (PyInt 1)]).
Proof.
  assert (moderate_N 2) as HN by (unfold moderate_N; lia).
  apply (scales_short_signal [] 2 (PyInt 1) (PyFloat (1 / 8))
           HN moderate_dt_default moderate_dj_default);
    simpl; lra.
Defined.

(** *** The shape of a returned ladder *)

Lemma nth_error_ladder {A : Type} (g : Z -> A) (stop : Z) (i : nat) :
  nth_error (map g (pow2 (arange stop))) i =
  if (i <? Z.to_nat stop)%nat then Some (g (wrap64 (2 ^ Z.of_nat i))) else None.
Proof.
  unfold pow2. rewrite !nth_error_map, nth_error_arange.
  destruct (i <? Z.to_nat stop)%nat; reflexivity.
Qed.

Lemma pow2_in_range (j : Z) : (0 <= j <= 62)%Z -> wrap64 (2 ^ j) = (2 ^ j)%Z.
Proof.
  intros Hj. apply wrap64_small. unfold int64_min, int64_max.
  assert (0 < 2 ^ j)%Z by (apply Z.pow_pos_nonneg; lia).
  assert (2 ^ j <= 2 ^ 62)%Z by (apply Z.pow_le_mono_r; lia).
  lia.
Qed.

Lemma float_ladder_increasing (s0 : R) (stop : Z) :
  0 < s0 -> (Z.to_nat stop <= 63)%nat ->
  increasing (map (fun e => s0 * IZR e) (pow2 (arange stop))).
Proof.
  intros Hs Hlen i a b. rewrite !nth_error_ladder.
  destruct (Nat.ltb_spec (S i) (Z.to_nat stop)) as [Hi | ]; [| discriminate].
  destruct (Nat.ltb_spec i (Z.to_nat stop)) as [_ | ]; [| lia].
  intros [= <-] [= <-].
  rewrite !pow2_in_range by lia.
  apply Rmult_lt_compat_l; [assumption |]. apply IZR_lt.
  apply Z.pow_lt_mono_r; lia.
Qed.

Lemma int_ladder_increasing (z : Z) (stop : Z) :
  (0 < z)%Z -> (z * 2 ^ (Z.of_nat (Z.to_nat stop) - 1) <= int64_max)%Z ->
  increasing (map IZR (map (fun e => wrap64 (z * e)) (pow2 (arange stop)))).
Proof.
  intros Hz Hmax i a b. rewrite map_map, !nth_error_ladder.
  destruct (Nat.ltb_spec (S i) (Z.to_nat stop)) as [Hi | ]; [| discriminate].
  destruct (Nat.ltb_spec i (Z.to_nat stop)) as [_ | ]; [| lia].
  intros [= <-] [= <-].
  set (len := Z.of_nat (Z.to_nat stop)) in *.
  assert (forall j, (0 <= j <= len - 1)%Z ->
            (0 < 2 ^ j /\ 2 ^ j <= z * 2 ^ j /\ z * 2 ^ j <= int64_max)%Z) as Hb.
  { intros j Hj.
    assert (0 < 2 ^ j)%Z by (apply Z.pow_pos_nonneg; lia).
    assert (2 ^ j <= 2 ^ (len - 1))%Z by (apply Z.pow_le_mono_r; lia).
    nia. }
  assert (forall j, (0 <= j <= len - 1)%Z ->
            wrap64 (z * wrap64 (2 ^ j)) = (z * 2 ^ j)%Z) as Hw.
  { intros j Hj. destruct (Hb j Hj) as (H1 & H2 & H3).
    rewrite (wrap64_small (2 ^ j)) by (unfold int64_min, int64_max in *; lia).
    apply wrap64_small. unfold int64_min, int64_max in *. lia. }
  rewrite !Hw by lia. apply IZR_lt.
  assert (2 ^ Z.of_nat i < 2 ^ Z.of_nat (S i))%Z by (apply Z.pow_lt_mono_r; lia).
  nia.
Qed.

(** C9 (as stated, refuted).  At N = 1, dt = 1, dj = 0.125 [scales]
    returns, and the ladder it returns is empty. *)
Lemma scales_returns_empty :
  scales (builder [] 1 1 (1 / 8)) = Return (Float64Array []).
Proof.
  rewrite (scales_builder [] 1 1 (1 / 8) (-8)) by apply J_1. reflexivity.
Qed.

(** C9 (amended).  Whenever [scales] returns, the ladder has max(J + 1, 0)
    elements for the [J] line 108 computed, so it is non-empty exactly when
    J >= 0; and when dt > 0, no element leaves the int64 range and, for a
    float dt, no product overflows float64, it is strictly increasing. *)
Theorem scales_ladder_shape (self : instance) (a : ndarray) :
  scales self = Return a ->
  (exists J : Z,
      largest_scale self = Return J /\
      Z.of_nat (length (values a)) = Z.max 0 (J + 1) /\
      (values a <> [] <-> (0 <= J)%Z)) /\
  (0 < to_R (WaveletAnalysis.dt self) ->
   no_wraparound (mul (PyInt 2) (WaveletAnalysis.dt self)) (length (values a)) ->
   float_safe (mul (PyInt 2) (WaveletAnalysis.dt self)) ->
   increasing (values a)).
Proof.
  rewrite scales_via_J.
  destruct (largest_scale self) as [J | e]; [| discriminate]. simpl.
  intros Hret.
  assert (length (values a) = Z.to_nat (J + 1)) as Hlen.
  { rewrite (length_values_scalar_mul _ _ _ Hret).
    unfold pow2. now rewrite length_map, length_arange. }
  split.
  - exists J. split; [reflexivity |]. split; [lia |].
    rewrite <- length_zero_iff_nil. lia.
  - intros Hdt Hfit _. rewrite Hlen in Hfit.
    destruct (WaveletAnalysis.dt self) as [z | r]; simpl in *.
    + destruct (in_int64 (2 * z)); [| discriminate].
      injection Hret as <-. simpl.
      apply int_ladder_increasing; [| exact Hfit].
      apply lt_IZR in Hdt. lia.
    + injection Hret as <-. simpl.
      apply float_ladder_increasing; [lra | exact Hfit].
Qed.

Lemma scales_ladder_shape_witness :
  (exists J : Z,
      largest_scale (builder [] 256 1 (1 / 8)) = Return J /\
      Z.of_nat (length (map (fun e => 2 * 1 * IZR e) (pow2 (arange 57)))) =
        Z.max 0 (J + 1) /\
      (map (fun e => 2 * 1 * IZR e) (pow2 (arange 57)) <> [] <-> (0 <= J)%Z)) /\
  increasing (map (fun e => 2 * 1 * IZR e) (pow2 (arange 57))).
Proof.
  assert (1 <> 0) as H1 by lra.
  destruct (scales_ladder_shape _ _ (scales_at_256 [] 1 H1)) as [Hlen Hinc].
  split; [exact Hlen |].
  apply Hinc; [simpl; lra | | exact ladder_256_safe].
  cbn [no_wraparound mul values]. unfold pow2.
  rewrite !length_map, length_arange. simpl. lia.
Defined.

(** *** Missing validation *)











(** *** The attribute N *)

(** C10 (as stated, refuted).  With dj = 0 the call on a freshly
    constructed object raises ZeroDivisionError, not AttributeError:
    [1 / dj] is evaluated before [self.N] is read. *)
Lemma scales_after_init_zero_dj :
  scales (__init__ [] (PyInt 1) (PyInt 0)) = Raise ZeroDivisionError /\
  scales (__init__ [] (PyInt 1) (PyInt 0)) <> Raise (AttributeError "N").
Proof. split; [reflexivity | discriminate]. Qed.

(** C10 (amended).  [scales] reads [self.N], which [__init__] does not
    bind: on an object constructed by [__init__] every call raises before
    any ladder is produced, for every numeric input (x, dt, dj);
    the exception is AttributeError when dj is not zero and
    ZeroDivisionError when it is. *)
Theorem scales_after_init (x : list R) (dt dj : num) :
  N (__init__ x dt dj) = None /\
  scales (__init__ x dt dj) =
  Raise (if is_zero dj then ZeroDivisionError else AttributeError "N").
Proof.
  split; [reflexivity |].
  unfold scales, truediv. simpl. destruct (is_zero dj); reflexivity.
Qed.

(** *** The registry of kernels *)

Lemma namespace_bindings :
  namespace =
  <["__weakref__" := Descriptor]>
    (<["__dict__" := Descriptor]>
       (<["dog2" := Func scipy_signal_ricker]>
          (<["ricker" := Func scipy_signal_ricker]>
             (<["morlet" := Func scipy_signal_morlet]>
                (<["__doc__" := Docstring]>
                   (<["__module__" := ModuleName]> ∅)))))).
Proof. reflexivity. Qed.

(** Besides the three kernels the namespace holds double-underscore
    names only. *)
Lemma namespace_other (name : string) :
  name ∉ registered -> is_dunder name = false -> namespace !! name = None.
Proof.
  intros Hreg Hdunder. unfold registered in Hreg.
  rewrite !not_elem_of_cons in Hreg. destruct Hreg as (Hm & Hr & Hd & _).
  assert (name <> "__weakref__" /\ name <> "__dict__" /\
          name <> "__doc__" /\ name <> "__module__") as (H1 & H2 & H3 & H4)
    by (repeat split; intros ->; discriminate).
  rewrite namespace_bindings.
  rewrite !lookup_insert_ne by congruence. apply lookup_empty.
Qed.

Lemma namespace_registered (name : string) :
  name ∈ registered -> exists f : pyfunc, namespace !! name = Some (Func f).
Proof.
  unfold registered. rewrite !elem_of_cons.
  intros [-> | [-> | [-> | H]]]; [eexists; reflexivity .. |].
  now apply not_elem_of_nil in H.
Qed.

Lemma getattr_not_unknown (inherited : gmap string pyobj) (name : string) :
  getattr inherited name <> Raise UnknownFamily.
Proof.
  unfold getattr. destruct (namespace !! name); [discriminate |].
  destruct (inherited !! name); discriminate.
Qed.

(** C6.  The name dog2 resolves to the very function object ricker
    resolves to, so calling the two with the same (length, width) gives
    the same result, whatever the function computes. *)
Theorem dog2_is_ricker (inherited : gmap string pyobj) :
  getattr inherited "dog2" = getattr inherited "ricker" /\
  getattr inherited "ricker" = Return (Func scipy_signal_ricker) /\
  (forall (Out : Type) (call : pyobj -> num -> num -> result Out)
          (length width : num),
      (f ← getattr inherited "dog2"; call f length width) =
      (f ← getattr inherited "ricker"; call f length width)).
Proof. repeat split. Qed.

(** C8 (as stated, refuted).  The unregistered name haar fails with
    AttributeError, never with UnknownFamily; and the unregistered name
    __doc__ does not fail at all. *)
Lemma getattr_unregistered :
  ("haar" ∉ registered) /\ ("__doc__" ∉ registered) /\
  forall inherited : gmap string pyobj,
    getattr inherited "haar" <> Raise UnknownFamily /\
    (inherited !! "haar" = None ->
     getattr inherited "haar" = Raise (AttributeError "haar")) /\
    getattr inherited "__doc__" = Return Docstring.
Proof.
  split; [| split].
  - unfold registered. rewrite !not_elem_of_cons. repeat split; try discriminate.
    apply not_elem_of_nil.
  - unfold registered. rewrite !not_elem_of_cons. repeat split; try discriminate.
    apply not_elem_of_nil.
  - intros inherited. split; [apply getattr_not_unknown |]. split.
    + intros H. unfold getattr. change (namespace !! "haar") with (@None pyobj).
      now rewrite H.
    + reflexivity.
Qed.

(** C8 (amended).  Looking a family name up on the class succeeds with
    a kernel function for each registered name (morlet, ricker, dog2);
    for a name that is not registered, does not start with two
    underscores and is not inherited, it fails with AttributeError; no
    lookup fails with UnknownFamily. *)
Theorem getattr_registry (inherited : gmap string pyobj) (name : string) :
  (name ∈ registered ->
   exists f : pyfunc, getattr inherited name = Return (Func f)) /\
  (name ∉ registered -> is_dunder name = false -> inherited !! name = None ->
   getattr inherited name = Raise (AttributeError name)) /\
  getattr inherited name <> Raise UnknownFamily.
Proof.
  split; [| split].
  - intros Hreg. destruct (namespace_registered name Hreg) as [f Hf].
    exists f. unfold getattr. now rewrite Hf.
  - intros Hreg Hdunder Hinh. unfold getattr.
    now rewrite (namespace_other name Hreg Hdunder), Hinh.
  - apply getattr_not_unknown.
Qed.

Lemma getattr_registry_witness :
  (exists f : pyfunc, getattr ∅ "morlet" = Return (Func f)) /\
  getattr ∅ "haar" = Raise (AttributeError "haar").
Proof.
  split.
  - apply (getattr_registry ∅ "morlet"). unfold registered. apply list_elem_of_here.
  - apply (getattr_registry ∅ "haar").
    + unfold registered. rewrite !not_elem_of_cons.
      repeat split; try discriminate. apply not_elem_of_nil.
    + reflexivity.
    + reflexivity.
Defined.

(** ** Further properties of [scales] *)

Lemma scales_inv (self : instance) (a : ndarray) :
  scales self = Return a ->
  exists J : Z,
    largest_scale self = Return J /\
    scalar_mul (mul (PyInt 2) (WaveletAnalysis.dt self)) (pow2 (arange (J + 1))) =
      Return a /\
    length (values a) = Z.to_nat (J + 1).
Proof.
  rewrite scales_via_J.
  destruct (largest_scale self) as [J | e]; [| discriminate]. simpl.
  intros Hret. exists J. split; [reflexivity |]. split; [exact Hret |].
  rewrite (length_values_scalar_mul _ _ _ Hret).
  unfold pow2. now rewrite length_map, length_arange.
Qed.

Lemma int_element_in_range (z len j : Z) :
  (0 < z)%Z -> (z * 2 ^ (len - 1) <= int64_max)%Z -> (0 <= j <= len - 1)%Z ->
  wrap64 (z * wrap64 (2 ^ j)) = (z * 2 ^ j)%Z.
Proof.
  intros Hz Hmax Hj.
  assert (0 < 2 ^ j)%Z by (apply Z.pow_pos_nonneg; lia).
  assert (2 ^ j <= 2 ^ (len - 1))%Z by (apply Z.pow_le_mono_r; lia).
  assert (z * 2 ^ j <= int64_max)%Z by nia.
  assert (2 ^ j <= z * 2 ^ j)%Z by nia.
  rewrite (wrap64_small (2 ^ j)) by (unfold int64_min, int64_max in *; lia).
  apply wrap64_small. unfold int64_min, int64_max in *. lia.
Qed.

(** Without wrap-around, element [i] of a returned ladder is s0 * 2^i. *)
Lemma ladder_nth (self : instance) (a : ndarray) (i : nat) :
  scales self = Return a ->
  0 < to_R (WaveletAnalysis.dt self) ->
  no_wraparound (mul (PyInt 2) (WaveletAnalysis.dt self)) (length (values a)) ->
  (i < length (values a))%nat ->
  nth_error (values a) i = Some (2 * to_R (WaveletAnalysis.dt self) * 2 ^ i).
Proof.
  intros Hret Hdt Hfit Hi.
  destruct (scales_inv _ _ Hret) as (J & _ & Hmul & Hlen).
  rewrite Hlen in Hfit, Hi.
  destruct (WaveletAnalysis.dt self) as [z | r]; simpl in *.
  - destruct (in_int64 (2 * z)); [| discriminate].
    injection Hmul as <-. simpl. rewrite map_map, nth_error_ladder.
    apply Nat.ltb_lt in Hi as Hib. rewrite Hib. f_equal.
    apply lt_IZR in Hdt.
    rewrite (int_element_in_range (2 * z) (Z.of_nat (Z.to_nat (J + 1))))
      by (try assumption; lia).
    rewrite !mult_IZR, <- pow_IZR. reflexivity.
  - injection Hmul as <-. simpl. rewrite nth_error_ladder.
    apply Nat.ltb_lt in Hi as Hib. rewrite Hib. f_equal.
    rewrite pow2_in_range by lia. now rewrite <- pow_IZR.
Qed.

(** X1.  Without wrap-around or float overflow, and with dt > 0, the
    ladder [scales] returns is s0 * 2^i at every index i: the exponent is
    the index itself, whatever dj is. *)
Theorem scales_closed_form (self : instance) (a : ndarray) (i : nat) (v : R) :
  scales self = Return a ->
  0 < to_R (WaveletAnalysis.dt self) ->
  no_wraparound (mul (PyInt 2) (WaveletAnalysis.dt self)) (length (values a)) ->
  float_safe (mul (PyInt 2) (WaveletAnalysis.dt self)) ->
  nth_error (values a) i = Some v ->
  v = 2 * to_R (WaveletAnalysis.dt self) * 2 ^ i.
Proof.
  intros Hret Hdt Hfit _ Hnth.
  assert (i < length (values a))%nat as Hi
    by (apply nth_error_Some; congruence).
  rewrite (ladder_nth self a i Hret Hdt Hfit Hi) in Hnth. congruence.
Qed.

(** X2.  Without wrap-around or float overflow, and with dt > 0, each
    element of the returned ladder is exactly twice the one before it. *)
Theorem scales_ratio_two (self : instance) (a : ndarray) (i : nat) (u v : R) :
  scales self = Return a ->
  0 < to_R (WaveletAnalysis.dt self) ->
  no_wraparound (mul (PyInt 2) (WaveletAnalysis.dt self)) (length (values a)) ->
  float_safe (mul (PyInt 2) (WaveletAnalysis.dt self)) ->
  nth_error (values a) i = Some u ->
  nth_error (values a) (S i) = Some v ->
  v = 2 * u.
Proof.
  intros Hret Hdt Hfit _ Hu Hv.
  assert (S i < length (values a))%nat as Hi
    by (apply nth_error_Some; congruence).
  rewrite (ladder_nth self a i Hret Hdt Hfit) in Hu by lia.
  rewrite (ladder_nth self a (S i) Hret Hdt Hfit Hi) in Hv.
  injection Hu as <-. injection Hv as <-. simpl. ring.
Qed.

(** X3.  Without wrap-around, and with dt > 0, every element of the
    returned ladder is positive. *)
Theorem scales_positive (self : instance) (a : ndarray) (v : R) :
  scales self = Return a ->
  0 < to_R (WaveletAnalysis.dt self) ->
  no_wraparound (mul (PyInt 2) (WaveletAnalysis.dt self)) (length (values a)) ->
  In v (values a) ->
  0 < v.
Proof.
  intros Hret Hdt Hfit Hin.
  destruct (In_nth_error _ _ Hin) as [i Hi].
  assert (i < length (values a))%nat as Hlt
    by (apply nth_error_Some; congruence).
  rewrite (ladder_nth self a i Hret Hdt Hfit Hlt) in Hi.
  injection Hi as <-.
  assert (0 < 2 ^ i) by (apply pow_lt; lra). nra.
Qed.

Lemma Rpower_2_IZR (j : Z) : (0 <= j)%Z -> Rpower 2 (IZR j * 1) = IZR (2 ^ j).
Proof.
  intros Hj. rewrite Rmult_1_r, <- (Z2Nat.id j) by assumption.
  rewrite <- INR_IZR_INZ, Rpower_pow by lra. now rewrite pow_IZR.
Qed.

Lemma in_arange (stop j : Z) : In j (arange stop) -> (0 <= j < stop)%Z.
Proof.
  unfold arange. rewrite in_map_iff. intros (k & <- & Hk).
  apply in_seq in Hk. lia.
Qed.

Lemma spec_J_unit_bound (n : Z) (dt : R) :
  (3 <= n <= 2 ^ 32)%Z -> dt <> 0 -> (spec_J n dt 1 <= 31)%Z.
Proof.
  intros [Hlo Hhi] Hdt. unfold spec_J.
  rewrite <- (ZfloorZ 31). apply Zfloor_le.
  rewrite quotient_simpl by assumption.
  apply IZR_le in Hlo. apply IZR_le in Hhi.
  assert (IZR (2 ^ 32) = 2 * 2 ^ 31) as E.
  { change (2 ^ 32)%Z with (2 * 2 ^ 31)%Z. rewrite mult_IZR.
    now rewrite (pow_IZR 2 31). }
  rewrite E in Hhi.
  assert (ln (IZR n / 2) <= ln (2 ^ 31)) as Hln.
  { pose proof (pow2_pos 31).
    destruct (Req_dec_T (IZR n / 2) (2 ^ 31)) as [-> | Hne]; [lra |].
    left. apply ln_increasing; lra. }
  rewrite ln_pow, (INR_IZR_INZ 31) in Hln by lra. simpl in Hln.
  pose proof ln_2_pos as H2.
  replace (1 / 1 * (ln (IZR n / 2) / ln 2)) with (ln (IZR n / 2) / ln 2)
    by (field; lra).
  apply Rmult_le_reg_r with (ln 2); [exact H2 |].
  replace (ln (IZR n / 2) / ln 2 * ln 2) with (ln (IZR n / 2)) by (field; lra).
  exact Hln.
Qed.

(** X4.  With dj = 1 the code computes the ladder of its docstring: for
    an int N between 3 and 2^32 and a float dt > 0 of moderate size, the
    returned values are s0 * 2^(j * dj) for j = 0 .. J. *)
Theorem scales_unit_resolution (x : list R) (n : Z) (dt : R) :
  (3 <= n <= 2 ^ 32)%Z -> moderate_dt (PyFloat dt) -> 0 < dt ->
  exists a : ndarray,
    scales (builder x n dt 1) = Return a /\
    values a = spec_ladder n dt 1.
Proof.
  intros Hn _ Hdt.
  assert (0 < 1) as H1 by lra.
  assert (IZR n * dt > 2 * dt) as Hlong.
  { destruct Hn as [Hlo _]. apply IZR_le in Hlo. nra. }
  assert (spec_J n dt 1 <= 31)%Z as Hsmall
    by (apply spec_J_unit_bound; [exact Hn | lra]).
  destruct (long_signal_J x n dt 1 ltac:(lia) Hdt H1 Hlong) as [HJ Hpos].
  rewrite (scales_builder _ _ _ _ _ HJ).
  eexists; split; [reflexivity |]. cbn [values].
  unfold spec_ladder, pow2. rewrite map_map. apply map_ext_in.
  intros j Hj. apply in_arange in Hj.
  rewrite pow2_in_range by lia. now rewrite Rpower_2_IZR by lia.
Qed.

Lemma wrap64_pow2_high (j : Z) : (64 <= j)%Z -> wrap64 (2 ^ j) = 0%Z.
Proof.
  intros Hj. unfold wrap64.
  replace j with (64 + (j - 64))%Z by lia.
  rewrite Z.pow_add_r by lia.
  replace (2 ^ 64 * 2 ^ (j - 64) + 2 ^ 63)%Z
    with (2 ^ 63 + 2 ^ (j - 64) * 2 ^ 64)%Z by ring.
  rewrite Z.mod_add by lia. reflexivity.
Qed.

(** X5.  Every element of a returned ladder at index 64 or beyond is zero:
    the power 2^j has wrapped around in int64. *)
Theorem scales_overflow_zero (self : instance) (a : ndarray) (i : nat) (v : R) :
  scales self = Return a ->
  (64 <= i)%nat ->
  nth_error (values a) i = Some v ->
  v = 0.
Proof.
  intros Hret Hi Hnth.
  destruct (scales_inv _ _ Hret) as (J & _ & Hmul & Hlen).
  assert (wrap64 (2 ^ Z.of_nat i) = 0%Z) as Hw
    by (apply wrap64_pow2_high; lia).
  destruct (WaveletAnalysis.dt self) as [z | r]; simpl in Hmul.
  - destruct (in_int64 (2 * z)); [| discriminate].
    injection Hmul as <-. simpl in Hnth.
    rewrite map_map, nth_error_ladder in Hnth.
    destruct (i <? Z.to_nat (J + 1))%nat; [| discriminate].
    injection Hnth as <-. rewrite Hw, Z.mul_0_r. reflexivity.
  - injection Hmul as <-. simpl in Hnth. rewrite nth_error_ladder in Hnth.
    destruct (i <? Z.to_nat (J + 1))%nat; [| discriminate].
    injection Hnth as <-. rewrite Hw. ring.
Qed.

(** X6.  With a float dt > 0 whose products do not overflow float64, a
    returned ladder of more than 63 elements is not increasing: element
    63 is s0 * (-2^63), below element 62. *)
Theorem scales_overflow_not_increasing (self : instance) (a : ndarray) (r : R) :
  scales self = Return a ->
  WaveletAnalysis.dt self = PyFloat r -> 0 < r ->
  float_safe (mul (PyInt 2) (WaveletAnalysis.dt self)) ->
  (63 < length (values a))%nat ->
  nth_error (values a) 63 = Some (2 * r * IZR (- 2 ^ 63)) /\
  ~ increasing (values a).
Proof.
  intros Hret Hdt Hr _ Hlen.
  destruct (scales_inv _ _ Hret) as (J & _ & Hmul & HlenJ).
  rewrite Hdt in Hmul. simpl in Hmul. injection Hmul as <-.
  simpl in *. rewrite HlenJ in Hlen.
  assert (forall i, (i < 64)%nat ->
            nth_error (map (fun e : Z => 2 * r * IZR e) (pow2 (arange (J + 1)))) i =
            Some (2 * r * IZR (wrap64 (2 ^ Z.of_nat i)))) as Hn.
  { intros i Hi. rewrite nth_error_ladder.
    assert ((i <? Z.to_nat (J + 1))%nat = true) as -> by (apply Nat.ltb_lt; lia).
    reflexivity. }
  split; [apply (Hn 63%nat); lia |].
  intros Hinc.
  specialize (Hinc 62%nat _ _ (Hn 62%nat ltac:(lia)) (Hn 63%nat ltac:(lia))).
  change (wrap64 (2 ^ Z.of_nat 62)) with (2 ^ 62)%Z in Hinc.
  change (wrap64 (2 ^ Z.of_nat 63)) with (- 2 ^ 63)%Z in Hinc.
  assert (IZR (- 2 ^ 63) < IZR (2 ^ 62)) by (apply IZR_lt; lia).
  nra.
Qed.

(** X10.  For an int N of magnitude at most 2^53 and non-zero dt and dj
    of moderate size, the sign of N decides the outcome: a positive N
    makes [scales] return, N = 0 (an empty signal) raises OverflowError,
    from int(-inf), and a negative N raises ValueError, from int(nan). *)
Theorem scales_length_sign (x : list R) (n : Z) (dt dj : num) :
  (Z.abs n <= 2 ^ 53)%Z -> moderate_dt dt -> moderate_dj dj ->
  ((0 < n)%Z -> exists a : ndarray, scales (analysis x n dt dj) = Return a) /\
  (n = 0%Z -> scales (analysis x n dt dj) = Raise OverflowError) /\
  ((n < 0)%Z -> scales (analysis x n dt dj) = Raise ValueError).
Proof.
  intros _ Hdt Hdj.
  pose proof (moderate_dt_nonzero _ Hdt) as Hdt0.
  pose proof (moderate_dj_nonzero _ Hdj) as Hdj0.
  split; [| split]; intros Hn.
  - now apply scales_returns.
  - subst n. apply scales_analysis_raises.
    rewrite largest_scale_to_R. now apply largest_scale_empty.
  - apply scales_analysis_raises.
    rewrite largest_scale_to_R. now apply largest_scale_negative.
Qed.

(** *** Instances of the properties above *)

Lemma ladder_256_fits :
  no_wraparound (mul (PyInt 2) (WaveletAnalysis.dt (builder [] 256 1 (1 / 8))))
    (length (values (Float64Array
       (map (fun e => 2 * 1 * IZR e) (pow2 (arange 57)))))).
Proof.
  cbn [no_wraparound mul values builder set_N __init__ WaveletAnalysis.dt].
  unfold pow2. rewrite !length_map, length_arange. simpl. lia.
Qed.

Lemma ladder_256_nth (i : nat) :
  (i < 57)%nat ->
  nth_error (values (Float64Array
     (map (fun e => 2 * 1 * IZR e) (pow2 (arange 57))))) i =
  Some (2 * 1 * IZR (wrap64 (2 ^ Z.of_nat i))).
Proof.
  intros Hi. cbn [values]. rewrite nth_error_ladder.
  assert ((i <? Z.to_nat 57)%nat = true) as -> by (apply Nat.ltb_lt; lia).
  reflexivity.
Qed.

Lemma one_nonzero : (1 : R) <> 0.
Proof. lra. Qed.

Lemma scales_closed_form_witness : 2 * 1 * 2 = 2 * 1 * 2 ^ 1.
Proof.
  apply (scales_closed_form (builder [] 256 1 (1 / 8)) _ 1 (2 * 1 * 2)
           (scales_at_256 [] 1 one_nonzero)).
  - simpl. lra.
  - exact ladder_256_fits.
  - exact ladder_256_safe.
  - apply (ladder_256_nth 1). lia.
Defined.

Lemma scales_ratio_two_witness : 2 * 1 * 2 = 2 * (2 * 1 * 1).
Proof.
  apply (scales_ratio_two (builder [] 256 1 (1 / 8)) _ 0 (2 * 1 * 1) (2 * 1 * 2)
           (scales_at_256 [] 1 one_nonzero)).
  - simpl. lra.
  - exact ladder_256_fits.
  - exact ladder_256_safe.
  - apply (ladder_256_nth 0). lia.
  - apply (ladder_256_nth 1). lia.
Defined.

Lemma scales_positive_witness : 0 < 2 * 1 * 4.
Proof.
  apply (scales_positive (builder [] 256 1 (1 / 8)) _ (2 * 1 * 4)
           (scales_at_256 [] 1 one_nonzero)).
  - simpl. lra.
  - exact ladder_256_fits.
  - apply (nth_error_In _ 2). apply (ladder_256_nth 2). lia.
Defined.

Lemma scales_unit_resolution_witness :
  exists a : ndarray,
    scales (builder [] 256 1 1) = Return a /\
    values a = spec_ladder 256 1 1.
Proof.
  apply (scales_unit_resolution [] 256 1); [lia | exact moderate_dt_one | lra].
Defined.

Lemma J_512 (x : list R) : largest_scale (builder x 512 1 (1 / 8)) = Return 64%Z.
Proof.
  rewrite largest_scale_builder by lra.
  rewrite (index_of_pow2 _ _ 8 8); [now rewrite trunc_IZR | simpl; lra | lra].
Qed.

Lemma scales_at_512 :
  scales (builder [] 512 1 (1 / 8)) =
  Return (Float64Array (map (fun e => 2 * 1 * IZR e) (pow2 (arange 65)))).
Proof.
  now rewrite (scales_builder [] 512 1 (1 / 8) 64) by apply J_512.
Qed.

Lemma scales_overflow_zero_witness : 2 * 1 * 0 = 0.
Proof.
  apply (scales_overflow_zero (builder [] 512 1 (1 / 8)) _ 64 (2 * 1 * 0)
           scales_at_512).
  - lia.
  - cbn [values]. rewrite nth_error_ladder. reflexivity.
Defined.

Lemma ladder_512_safe :
  float_safe (mul (PyInt 2) (WaveletAnalysis.dt (builder [] 512 1 (1 / 8)))).
Proof. exact ladder_256_safe. Qed.

Lemma scales_overflow_not_increasing_witness :
  nth_error (map (fun e => 2 * 1 * IZR e) (pow2 (arange 65))) 63 =
    Some (2 * 1 * IZR (- 2 ^ 63)) /\
  ~ increasing (map (fun e => 2 * 1 * IZR e) (pow2 (arange 65))).
Proof.
  apply (scales_overflow_not_increasing (builder [] 512 1 (1 / 8)) _ 1
           scales_at_512).
  - reflexivity.
  - lra.
  - exact ladder_512_safe.
  - cbn [values]. unfold pow2. rewrite !length_map, length_arange. simpl. lia.
Defined.

Lemma scales_length_sign_witness :
  scales (analysis [] 0 (PyInt 1) (PyFloat (1 / 8))) = Raise OverflowError.
Proof.
  assert (Z.abs 0 <= 2 ^ 53)%Z as H0 by lia.
  apply (scales_length_sign [] 0 (PyInt 1) (PyFloat (1 / 8)) H0
           moderate_dt_default moderate_dj_default).
  reflexivity.
Defined.
